(** * go-pkgz/auth: service composition, provider registry and request dispatch

    A shallow embedding of [auth.go] (package [auth]): [NewService],
    [Handlers], [Middleware], [AddProvider] and [Provider], together with the
    parts of the Go runtime they rest on (slices with shared backing arrays,
    [strings.Split], [strings.ToLower], [http.ResponseWriter]).

    Packages of the repository whose sources are not part of [auth.go]
    ([token], [provider], [avatar], [middleware]) and the libraries it imports
    ([rest], [encoding/json], [unicode]) are collaborators: their types are
    opaque handles and their functions are fields of a type class, so every
    theorem holds for every implementation of them. *)

From Stdlib Require Import String Ascii ZArith.
From stdpp Require Import base list strings.

Local Open Scope string_scope.
Local Open Scope list_scope.
Local Open Scope nat_scope.

(** ** Go strings *)

Fixpoint string_forallb (f : ascii → bool) (s : string) : bool :=
  match s with
  | EmptyString => true
  | String c s' => f c && string_forallb f s'
  end.

Fixpoint string_map (f : ascii → ascii) (s : string) : string :=
  match s with
  | EmptyString => EmptyString
  | String c s' => String (f c) (string_map f s')
  end.

(** [c < utf8.RuneSelf] *)
Definition is_ascii (c : ascii) : bool := nat_of_ascii c <? 128.

(** ['A' <= c && c <= 'Z'] *)
Definition is_upper (c : ascii) : bool :=
  (65 <=? nat_of_ascii c) && (nat_of_ascii c <=? 90).

(** [c += 'a' - 'A'] on an upper-case ASCII letter. *)
Definition ascii_lower (c : ascii) : ascii :=
  if is_upper c then ascii_of_nat (nat_of_ascii c + 32) else c.

(** [strings.Split(s, sep)] for a separator of one byte: the substrings
    between the separators, at least one of them (the whole of [s] when the
    separator does not occur, the empty string for an empty [s]). *)
Fixpoint strings_Split (s : string) (sep : ascii) : list string :=
  match s with
  | EmptyString => [EmptyString]
  | String c s' =>
      if Ascii.eqb c sep then EmptyString :: strings_Split s' sep
      else match strings_Split s' sep with
           | seg :: segs => String c seg :: segs
           | [] => [String c EmptyString]
           end
  end.

(** Whether the byte [sep] occurs in [s]. *)
Fixpoint string_contains (sep : ascii) (s : string) : bool :=
  match s with
  | EmptyString => false
  | String c s' => Ascii.eqb c sep || string_contains sep s'
  end.

(** ** Go slices

    A slice is a header (backing array, length, capacity); the arrays live in
    a store indexed by address. Copying a header shares the array. *)

Record slice := mkSlice {
  sl_array : option nat;
  sl_len : nat;
  sl_cap : nat;
}.

(** The [nil] slice, the zero value of a slice-typed field. *)
Definition nil_slice : slice := mkSlice None 0 0.

Section Slices.
Context {T : Type}.
(** The element type's zero value, which fills fresh array slots. *)
Variable zero : T.
(** The spare capacity the runtime's [growslice] adds when it reallocates
    a slice of the given capacity (any amount is allowed by the language). *)
Variable slack : nat → nat.

(** The elements a header shows: the first [len] slots of its array. *)
Definition slice_elems (h : list (list T)) (s : slice) : list T :=
  match sl_array s with
  | Some a => take (sl_len s) (default [] (h !! a))
  | None => []
  end.

(** [append(s, x)] reallocating: a fresh array holding the old elements,
    [x] and the spare slots. *)
Definition growslice (h : list (list T)) (s : slice) (x : T)
  : list (list T) * slice :=
  let spare := slack (sl_cap s) in
  (h ++ [slice_elems h s ++ x :: replicate spare zero],
   mkSlice (Some (length h)) (S (sl_len s)) (S (sl_len s) + spare)).

(** [append(s, x)]: in place when the capacity allows it, the array being
    shared with every other header on it; a new array otherwise. *)
Definition go_append (h : list (list T)) (s : slice) (x : T)
  : list (list T) * slice :=
  match sl_array s with
  | Some a =>
      if sl_len s <? sl_cap s
      then (alter (λ arr, <[sl_len s := x]> arr) a h,
            mkSlice (Some a) (S (sl_len s)) (sl_cap s))
      else growslice h s x
  | None => growslice h s x
  end.

(** A header is well formed in a store: its array is allocated with [cap]
    slots and [len <= cap]; a header without array has no capacity. *)
Definition slice_ok (h : list (list T)) (s : slice) : bool :=
  match sl_array s with
  | Some a =>
      match h !! a with
      | Some arr => (length arr =? sl_cap s) && (sl_len s <=? sl_cap s)
      | None => false
      end
  | None => (sl_len s =? 0) && (sl_cap s =? 0)
  end.

(** An older header [s0] is covered by the header [s] that is appended
    to: its array is allocated, and where both share an array, [s0] is no
    longer than [s]. *)
Definition covered (h : list (list T)) (s0 s : slice) : Prop :=
  match sl_array s0 with
  | Some a0 => a0 < length h ∧ (sl_array s = Some a0 → sl_len s0 ≤ sl_len s)
  | None => True
  end.
End Slices.

(** ** net/http *)

Record Request := mkRequest {
  Method : string;
  URL_Path : string;
}.

(** What a handler has sent so far: the status line, once written, and the
    body bytes. *)
Record ResponseWriter := mkWriter {
  status : option nat;
  body : string;
}.

(** The writer the server hands to a handler. *)
Definition new_writer : ResponseWriter := mkWriter None "".

Definition StatusOK : nat := 200.
Definition StatusBadRequest : nat := 400.

(** [w.WriteHeader(code)]: the first call fixes the status. *)
Definition rw_WriteHeader (code : nat) (w : ResponseWriter) : ResponseWriter :=
  match status w with
  | Some _ => w
  | None => mkWriter (Some code) (body w)
  end.

(** [w.Write(b)]: sends [StatusOK] first when no status was written. *)
Definition rw_Write (b : string) (w : ResponseWriter) : ResponseWriter :=
  let w' := rw_WriteHeader StatusOK w in
  mkWriter (status w') (body w' +:+ b).

(** The data [auth.go] hands to [rest.RenderJSON]: a [[]string], or a
    [rest.JSON] object whose values are strings. *)
Inductive rest_data :=
  | StringList (l : list string)
  | JSONObject (fields : list (string * string)).

(** ** Collaborators *)

(** Types declared in the packages [token], [middleware], [avatar] and
    [provider]; [auth.go] only passes their values around. *)
Class Handles := {
  token_Secret : Type;
  token_ClaimsUpdater : Type;
  token_Service : Type;
  middleware_Validator : Type;
  avatar_Store : Type;
  provider_Service : Type;
}.

Section Records.
Context `{Handles}.

(** [token.Opts], with the fields [NewService] sets. *)
Record token_Opts := mkTokenOpts {
  TokenOpts_SecretReader : option token_Secret;
  TokenOpts_ClaimsUpd : option token_ClaimsUpdater;
  TokenOpts_SecureCookies : bool;
  TokenOpts_TokenDuration : Z;
  TokenOpts_CookieDuration : Z;
  TokenOpts_DisableXSRF : bool;
  TokenOpts_JWTCookieName : string;
  TokenOpts_JWTHeaderKey : string;
  TokenOpts_XSRFCookieName : string;
  TokenOpts_XSRFHeaderKey : string;
  TokenOpts_Issuer : string;
}.

(** [avatar.Proxy] *)
Record avatar_Proxy := mkProxy {
  Proxy_Store : avatar_Store;
  Proxy_URL : string;
  Proxy_RoutePath : string;
}.

(** [provider.Params]; [AvatarProxy] is a pointer and may be [nil]. *)
Record provider_Params := mkParams {
  Params_URL : string;
  Params_JwtService : token_Service;
  Params_Issuer : string;
  Params_AvatarProxy : option avatar_Proxy;
  Params_Cid : string;
  Params_Csecret : string;
}.

(** [middleware.Authenticator], a struct held and returned by value; its
    [Providers] field is a slice header. *)
Record middleware_Authenticator := mkAuthenticator {
  Authenticator_JWTService : token_Service;
  Authenticator_Validator : option middleware_Validator;
  Authenticator_DevPasswd : string;
  Authenticator_Providers : slice;
}.

(** [Opts]: interface-typed fields are [None] when [nil]. *)
Record Opts := mkOpts {
  SecretReader : option token_Secret;
  ClaimsUpd : option token_ClaimsUpdater;
  SecureCookies : bool;
  TokenDuration : Z;
  CookieDuration : Z;
  DisableXSRF : bool;
  JWTCookieName : string;
  JWTHeaderKey : string;
  XSRFCookieName : string;
  XSRFHeaderKey : string;
  Issuer : string;
  URL : string;
  Validator : option middleware_Validator;
  DevPasswd : string;
  AvatarStore : option avatar_Store;
}.

(** [Service] *)
Record Service := mkService {
  opts : Opts;
  jwtService : token_Service;
  providers : slice;
  authMiddleware : middleware_Authenticator;
  avatarProxy : option avatar_Proxy;
  issuer : string;
}.

(** The program state [auth.go] works on: the backing arrays of the
    provider slices, and the [Service] behind the receiver pointer. *)
Record state := mkState {
  heap : list (list provider_Service);
  svc : Service;
}.

(** The handler a dispatcher hands the request over to. *)
Inductive callee :=
  | ProviderHandler (p : provider_Service)
  | AvatarHandler (a : avatar_Proxy).

(** How a dispatcher ends: it returns having written to [w], it calls
    another handler with [(w, r)] as its last action, or it panics. *)
Inductive outcome :=
  | Done (w : ResponseWriter)
  | TailCall (c : callee) (w : ResponseWriter) (r : Request)
  | Panic (msg : string).
End Records.

(** Functions and fields of other packages that [auth.go] uses. *)
Class Packages `{Handles} := {
  (** [token.NewService] *)
  token_NewService : token_Opts → token_Service;
  (** the [Name] field of [provider.Service] *)
  provider_Name : provider_Service → string;
  (** [provider.Service{}] *)
  provider_zero : provider_Service;
  provider_NewGithub : provider_Params → provider_Service;
  provider_NewGoogle : provider_Params → provider_Service;
  provider_NewFacebook : provider_Params → provider_Service;
  provider_NewDev : provider_Params → provider_Service;
  (** the bytes [encoding/json] produces for a value *)
  json_Marshal : rest_data → string;
  (** [strings.Map(unicode.ToLower, s)], the path [strings.ToLower] takes
      for a string with a byte outside ASCII *)
  unicode_ToLower : string → string;
  (** spare capacity chosen by the runtime when [append] reallocates *)
  growslice_slack : nat → nat;
}.

(** ** Package auth *)

Section Auth.
Context `{Packages}.

(** [strings.ToLower]: bytes are lower-cased one by one when the string is
    ASCII, the Unicode mapping is applied otherwise. *)
Definition strings_ToLower (s : string) : string :=
  if string_forallb is_ascii s then string_map ascii_lower s
  else unicode_ToLower s.

(** [rest.RenderJSON(w, r, data)]: the JSON text of [data] is written to
    [w]. *)
Definition rest_RenderJSON (w : ResponseWriter) (r : Request)
    (data : rest_data) : ResponseWriter :=
  rw_Write (json_Marshal data) w.

(** The message of Go's run-time panic on [a[i]] with [i] out of range. *)
Definition index_out_of_range : string := "index out of range".

(** The message of Go's run-time panic on a [nil] pointer. *)
Definition nil_dereference : string :=
  "invalid memory address or nil pointer dereference".

(** [a[i]] followed by [k]: a panic when [i] is out of range. *)
Definition index {A : Type} (a : list A) (i : nat) (k : A → outcome)
  : outcome :=
  match a !! i with
  | Some x => k x
  | None => Panic index_out_of_range
  end.

(** [NewService]: the service pointer and the error it returns, each [None]
    when [nil]. *)
Definition NewService (o : Opts) : option Service * option string :=
  match SecretReader o with
  | None => (None, Some "SecretReader not defined")
  | Some _ =>
      let jwt :=
        token_NewService
          {| TokenOpts_SecretReader := SecretReader o;
             TokenOpts_ClaimsUpd := ClaimsUpd o;
             TokenOpts_SecureCookies := SecureCookies o;
             TokenOpts_TokenDuration := TokenDuration o;
             TokenOpts_CookieDuration := CookieDuration o;
             TokenOpts_DisableXSRF := DisableXSRF o;
             TokenOpts_JWTCookieName := JWTCookieName o;
             TokenOpts_JWTHeaderKey := JWTHeaderKey o;
             TokenOpts_XSRFCookieName := XSRFCookieName o;
             TokenOpts_XSRFHeaderKey := XSRFHeaderKey o;
             TokenOpts_Issuer := Issuer o |} in
      let res :=
        {| opts := o;
           jwtService := jwt;
           providers := nil_slice;
           authMiddleware :=
             {| Authenticator_JWTService := jwt;
                Authenticator_Validator := Validator o;
                Authenticator_DevPasswd := DevPasswd o;
                Authenticator_Providers := nil_slice |};
           avatarProxy := None;
           issuer := "" |} in
      let res :=
        if String.eqb (Issuer o) "" then
          mkService (opts res) (jwtService res) (providers res)
            (authMiddleware res) (avatarProxy res) "go-pkgz/auth"
        else res in
      let res :=
        match AvatarStore o with
        | Some store =>
            mkService (opts res) (jwtService res) (providers res)
              (authMiddleware res)
              (Some {| Proxy_Store := store;
                       Proxy_URL := URL o;
                       Proxy_RoutePath := "/avatar" |})
              (issuer res)
        | None => res
        end in
      (Some res, None)
  end.

(** The state right after [NewService] returned [s]: nothing allocated. *)
Definition initial (s : Service) : state := mkState [] s.

(** [s.providers], as the elements it shows in the current store. *)
Definition registry (st : state) : list provider_Service :=
  slice_elems (heap st) (providers (svc st)).

(** The providers a middleware value shows in the store of [st]. *)
Definition middleware_view (st : state) (m : middleware_Authenticator)
  : list provider_Service :=
  slice_elems (heap st) (Authenticator_Providers m).

(** the loop of [Provider] *)
Fixpoint Provider_scan (name : string) (ps : list provider_Service)
  : option provider_Service :=
  match ps with
  | [] => None
  | p :: ps' =>
      if String.eqb (provider_Name p) name then Some p else Provider_scan name ps'
  end.

(** [s.Provider(name)]: the pair [(provider.Service, error)]. *)
Definition Provider (st : state) (name : string)
  : provider_Service * option string :=
  match Provider_scan name (registry st) with
  | Some p => (p, None)
  | None => (provider_zero, Some ("provider " +:+ name +:+ " not found"))
  end.

(** The closure [providerHandler] of [Handlers]; it reads the service
    through the pointer [s], so it runs in the state of the request. *)
Definition providerHandler (st : state) (w : ResponseWriter) (r : Request)
  : outcome :=
  let elems := strings_Split (URL_Path r) "/" in
  if length elems <? 2 then Done (rw_WriteHeader StatusBadRequest w)
  else
    index elems (length elems - 1) (λ final,
      if String.eqb final "list" then
        let list :=
          foldl (λ list p, list ++ [provider_Name p]) [] (registry st) in
        Done (rest_RenderJSON w r (StringList list))
      else if String.eqb final "logout" then
        index (registry st) 0 (λ p, TailCall (ProviderHandler p) w r)
      else
        index elems (length elems - 2) (λ provName,
          match Provider st provName with
          | (p, None) => TailCall (ProviderHandler p) w r
          | (_, Some _) =>
              let w := rw_WriteHeader StatusBadRequest w in
              Done (rest_RenderJSON w r
                      (JSONObject
                         [("error",
                           "provider " +:+ provName +:+ " not supported")]))
          end)).

(** Modelled from the spec: [avatar.Proxy]'s method [Handler] is not in
    [auth.go]. With a binding present the request is the proxy's; with the
    binding absent the spec describes the source as crashing on a nil
    dereference. *)
Definition avatar_Proxy_Handler (p : option avatar_Proxy)
    (w : ResponseWriter) (r : Request) : outcome :=
  match p with
  | Some a => TailCall (AvatarHandler a) w r
  | None => Panic nil_dereference
  end.

(** [s.Handlers()]: the provider handler, a closure over [s], and the
    method value [s.avatarProxy.Handler], whose receiver is read when
    [Handlers] is called. *)
Definition Handlers (st : state)
  : (state → ResponseWriter → Request → outcome)
    * (ResponseWriter → Request → outcome) :=
  (providerHandler, avatar_Proxy_Handler (avatarProxy (svc st))).

(** [s.Middleware()]: a copy of the struct. *)
Definition Middleware (st : state) : middleware_Authenticator :=
  authMiddleware (svc st).

(** [s.providers = append(s.providers, x)] *)
Definition append_provider (st : state) (x : provider_Service) : state :=
  let s := svc st in
  let '(h, sl) :=
    go_append provider_zero growslice_slack (heap st) (providers s) x in
  mkState h
    (mkService (opts s) (jwtService s) sl (authMiddleware s)
       (avatarProxy s) (issuer s)).

(** [s.authMiddleware.Providers = s.providers] *)
Definition push_providers (st : state) : state :=
  let s := svc st in
  let m := authMiddleware s in
  mkState (heap st)
    (mkService (opts s) (jwtService s) (providers s)
       (mkAuthenticator (Authenticator_JWTService m)
          (Authenticator_Validator m) (Authenticator_DevPasswd m)
          (providers s))
       (avatarProxy s) (issuer s)).

(** The [provider.Params] that [AddProvider] builds. *)
Definition params_of (s : Service) (cid csecret : string) : provider_Params :=
  {| Params_URL := URL (opts s);
     Params_JwtService := jwtService s;
     Params_Issuer := issuer s;
     Params_AvatarProxy := avatarProxy s;
     Params_Cid := cid;
     Params_Csecret := csecret |}.

(** [s.AddProvider(name, cid, csecret)] *)
Definition AddProvider (st : state) (name cid csecret : string) : state :=
  let p := params_of (svc st) cid csecret in
  let kind := strings_ToLower name in
  if String.eqb kind "github" then
    push_providers (append_provider st (provider_NewGithub p))
  else if String.eqb kind "google" then
    push_providers (append_provider st (provider_NewGoogle p))
  else if String.eqb kind "facebook" then
    push_providers (append_provider st (provider_NewFacebook p))
  else if String.eqb kind "yandex" then
    push_providers (append_provider st (provider_NewFacebook p))
  else if String.eqb kind "dev" then
    push_providers (append_provider st (provider_NewDev p))
  else st.

(** One call of [AddProvider], as its three arguments. *)
Definition registration : Type := string * string * string.

(** A sequence of [AddProvider] calls. *)
Definition AddProviders (st : state) (calls : list registration) : state :=
  foldl (λ st '(name, cid, csecret), AddProvider st name cid csecret)
    st calls.

(** The invariant of the states [auth.go] produces: the registry's header
    is well formed and the middleware holds the same header. *)
Definition state_ok (st : state) : Prop :=
  slice_ok (heap st) (providers (svc st)) = true
  ∧ Authenticator_Providers (authMiddleware (svc st)) = providers (svc st).

(** The table the [switch] of [AddProvider] implements: the constructor
    called for a lower-cased name. *)
Definition constructor_of (kind : string)
  : option (provider_Params → provider_Service) :=
  if String.eqb kind "github" then Some provider_NewGithub
  else if String.eqb kind "google" then Some provider_NewGoogle
  else if String.eqb kind "facebook" then Some provider_NewFacebook
  else if String.eqb kind "yandex" then Some provider_NewFacebook
  else if String.eqb kind "dev" then Some provider_NewDev
  else None.

(** The descriptor one [AddProvider] call on the service [s] registers,
    if any. *)
Definition descriptor_of (s : Service) (call : registration)
  : option provider_Service :=
  let '(name, cid, csecret) := call in
  match constructor_of (strings_ToLower name) with
  | Some new => Some (new (params_of s cid csecret))
  | None => None
  end.
(** What [AddProvider] never assigns: the fields its [provider.Params] are
    built from. *)
Definition same_settings (s s' : Service) : Prop :=
  opts s' = opts s ∧ jwtService s' = jwtService s
  ∧ avatarProxy s' = avatarProxy s ∧ issuer s' = issuer s.
(** The [token.Opts] literal of [NewService]: the options handed on field
    by field, the issuer as configured. *)
Definition token_opts_of (o : Opts) : token_Opts :=
  {| TokenOpts_SecretReader := SecretReader o;
     TokenOpts_ClaimsUpd := ClaimsUpd o;
     TokenOpts_SecureCookies := SecureCookies o;
     TokenOpts_TokenDuration := TokenDuration o;
     TokenOpts_CookieDuration := CookieDuration o;
     TokenOpts_DisableXSRF := DisableXSRF o;
     TokenOpts_JWTCookieName := JWTCookieName o;
     TokenOpts_JWTHeaderKey := JWTHeaderKey o;
     TokenOpts_XSRFCookieName := XSRFCookieName o;
     TokenOpts_XSRFHeaderKey := XSRFHeaderKey o;
     TokenOpts_Issuer := Issuer o |}.

(** A call out of package [auth] that may have effects of its own.
    [NewService] contains one, [token.NewService]; the rest of its body
    builds values. *)
Inductive package_call :=
  | call_token_NewService (o : token_Opts).

(** [NewService] once more, statement by statement, with the calls it makes
    into other packages recorded in order beside its result. *)
Definition NewService_traced (o : Opts)
  : list package_call * (option Service * option string) :=
  match SecretReader o with
  | None => ([], (None, Some "SecretReader not defined"))
  | Some _ =>
      let calls := [call_token_NewService (token_opts_of o)] in
      let jwt := token_NewService (token_opts_of o) in
      let res :=
        {| opts := o;
           jwtService := jwt;
           providers := nil_slice;
           authMiddleware :=
             {| Authenticator_JWTService := jwt;
                Authenticator_Validator := Validator o;
                Authenticator_DevPasswd := DevPasswd o;
                Authenticator_Providers := nil_slice |};
           avatarProxy := None;
           issuer := "" |} in
      let res :=
        if String.eqb (Issuer o) "" then
          mkService (opts res) (jwtService res) (providers res)
            (authMiddleware res) (avatarProxy res) "go-pkgz/auth"
        else res in
      let res :=
        match AvatarStore o with
        | Some store =>
            mkService (opts res) (jwtService res) (providers res)
              (authMiddleware res)
              (Some {| Proxy_Store := store;
                       Proxy_URL := URL o;
                       Proxy_RoutePath := "/avatar" |})
              (issuer res)
        | None => res
        end in
      (calls, (Some res, None))
  end.
End Auth.

(** ** A concrete set of collaborators

    Used to run the model on concrete requests. *)

(** Modelled from the spec: the type [provider.Service] and its constructors
    are not in [auth.go]. A descriptor carries the name of its kind in lower
    case, the client id and secret, and the issuer of the service. *)
Record ProviderDescriptor := mkDescriptor {
  descriptor_name : string;
  descriptor_clientID : string;
  descriptor_clientSecret : string;
  descriptor_issuer : string;
}.

Definition sample_handles : Handles :=
  {| token_Secret := unit;
     token_ClaimsUpdater := unit;
     token_Service := unit;
     middleware_Validator := unit;
     avatar_Store := unit;
     provider_Service := ProviderDescriptor |}.

Definition sample_descriptor (kind : string)
    (p : @provider_Params sample_handles) : ProviderDescriptor :=
  mkDescriptor kind (Params_Cid p) (Params_Csecret p) (Params_Issuer p).

(** The double quote, byte 34. *)
Definition dquote : string := String (ascii_of_nat 34) EmptyString.

(** A JSON string literal: quotes and backslashes escaped. *)
Fixpoint json_escape (s : string) : string :=
  match s with
  | EmptyString => EmptyString
  | String c s' =>
      if Nat.eqb (nat_of_ascii c) 34 || Nat.eqb (nat_of_ascii c) 92
      then String (ascii_of_nat 92) (String c (json_escape s'))
      else String c (json_escape s')
  end.

Definition json_string (s : string) : string :=
  dquote +:+ json_escape s +:+ dquote.

(** A compact JSON text for the two shapes of [rest_data]. *)
Definition sample_json (d : rest_data) : string :=
  match d with
  | StringList l => "[" +:+ String.concat "," (map json_string l) +:+ "]"
  | JSONObject fields =>
      "{" +:+ String.concat ","
                (map (λ kv, json_string (fst kv) +:+ ":" +:+ json_string (snd kv))
                   fields)
      +:+ "}"
  end.

Definition sample_packages : @Packages sample_handles :=
  {| token_NewService := λ _, tt : @token_Service sample_handles;
     provider_Name := descriptor_name : @provider_Service sample_handles → string;
     provider_zero := mkDescriptor "" "" "" "";
     provider_NewGithub := sample_descriptor "github";
     provider_NewGoogle := sample_descriptor "google";
     provider_NewFacebook := sample_descriptor "facebook";
     provider_NewDev := sample_descriptor "dev";
     json_Marshal := sample_json;
     unicode_ToLower := λ s, s;
     growslice_slack := λ cap, cap - 1 |}.

(** Options with a secret reader and nothing else but an issuer and an
    avatar store, as in [TestProvider]. *)
Definition sample_opts (iss : string) (store : option unit)
  : @Opts sample_handles :=
  @mkOpts sample_handles (Some tt) None false 0 0 false "" "" "" "" iss
    "http://127.0.0.1:8080" None "" store.

(** A service with no provider registered yet. *)
Definition sample_service (iss : string) (store : option unit)
  : @Service sample_handles :=
  @mkService sample_handles (sample_opts iss store) tt nil_slice
    (@mkAuthenticator sample_handles tt None "" nil_slice)
    (match store with
     | Some st => Some (@mkProxy sample_handles st "http://127.0.0.1:8080" "/avatar")
     | None => None
     end)
    (if String.eqb iss "" then "go-pkgz/auth" else "").

Definition GET (path : string) : Request := mkRequest "GET" path.

(** * Properties *)

(** ** Strings *)

Lemma strings_Split_nonempty (s : string) (sep : ascii) :
  strings_Split s sep ≠ [].
Proof.
  destruct s as [|c s]; simpl; [done|].
  destruct (Ascii.eqb c sep); [done|].
  by destruct (strings_Split s sep).
Qed.

(** [strings.Split] yields a single segment exactly when the separator does
    not occur. *)
Lemma strings_Split_length (s : string) (sep : ascii) :
  length (strings_Split s sep) < 2 ↔ string_contains sep s = false.
Proof.
  induction s as [|c s IH]; simpl; [split; [done | lia]|].
  destruct (Ascii.eqb c sep); simpl.
  - pose proof (strings_Split_nonempty s sep).
    destruct (strings_Split s sep); [done|]. simpl. split; [lia | done].
  - rewrite <- IH. pose proof (strings_Split_nonempty s sep).
    by destruct (strings_Split s sep).
Qed.

Lemma string_app_inv_head (p a b : string) : p +:+ a = p +:+ b → a = b.
Proof. induction p as [|c p IH]; simpl; [done|]. intros [= ?]. auto. Qed.

(** ** Slices *)

Section SliceFacts.
Context {T : Type} (zero : T) (slack : nat → nat).
Implicit Types (h : list (list T)) (s : slice) (x : T).

Lemma slice_elems_length h s :
  slice_ok h s = true → length (slice_elems h s) = sl_len s.
Proof.
  unfold slice_ok, slice_elems. destruct (sl_array s) as [a|].
  - destruct (h !! a) as [arr|]; [|done]. simpl.
    intros [?%Nat.eqb_eq ?%Nat.leb_le]%andb_prop. rewrite length_take. lia.
  - intros [->%Nat.eqb_eq _]%andb_prop. done.
Qed.

Lemma growslice_elems h s x :
  slice_ok h s = true →
  slice_elems (growslice zero slack h s x).1 (growslice zero slack h s x).2
    = slice_elems h s ++ [x]
  ∧ slice_ok (growslice zero slack h s x).1 (growslice zero slack h s x).2
    = true.
Proof.
  intros Hok. pose proof (slice_elems_length h s Hok) as Hlen.
  unfold growslice, slice_elems at 1, slice_ok at 1. simpl.
  rewrite lookup_app_r, Nat.sub_diag by lia. simpl. split.
  - rewrite take_app_ge by lia. rewrite Hlen.
    replace (S (sl_len s) - sl_len s) with 1 by lia. done.
  - rewrite length_app, Hlen. simpl. rewrite length_replicate.
    apply andb_true_intro. split; [apply Nat.eqb_eq | apply Nat.leb_le]; lia.
Qed.

(** [append] shows the old elements followed by the new one, and leaves a
    well-formed header. *)
Lemma go_append_elems h s x :
  slice_ok h s = true →
  slice_elems (go_append zero slack h s x).1 (go_append zero slack h s x).2
    = slice_elems h s ++ [x]
  ∧ slice_ok (go_append zero slack h s x).1 (go_append zero slack h s x).2
    = true.
Proof.
  intros Hok. unfold go_append.
  destruct (sl_array s) as [a|] eqn:Ha; [|by apply growslice_elems].
  destruct (sl_len s <? sl_cap s) eqn:Hlt; [|by apply growslice_elems].
  apply Nat.ltb_lt in Hlt. revert Hok.
  unfold slice_ok, slice_elems. rewrite Ha. simpl.
  destruct (h !! a) as [arr|] eqn:Harr; [|done].
  intros [Hc%Nat.eqb_eq _]%andb_prop.
  rewrite list_lookup_alter_eq, Harr. simpl. split.
  - rewrite (take_S_r _ _ x) by (apply list_lookup_insert_eq; lia).
    by rewrite take_insert_ge by lia.
  - rewrite length_insert. destruct (sl_cap s) as [|c]; [lia|].
    apply andb_true_intro. split; [apply Nat.eqb_eq | apply Nat.leb_le]; lia.
Qed.

(** A header taken before an [append] keeps showing what it showed, and
    stays covered by the header appended to. *)
Lemma go_append_covered h s s0 x :
  slice_ok h s = true →
  covered h s0 s →
  slice_elems (go_append zero slack h s x).1 s0 = slice_elems h s0
  ∧ covered (go_append zero slack h s x).1 s0 (go_append zero slack h s x).2.
Proof.
  intros Hok Hcov. unfold covered, slice_elems in *.
  destruct (sl_array s0) as [a0|]; [|done]. destruct Hcov as [Ha0 Hle].
  assert (Hgrow :
    take (sl_len s0) (default [] ((growslice zero slack h s x).1 !! a0))
      = take (sl_len s0) (default [] (h !! a0))
    ∧ a0 < length (growslice zero slack h s x).1
    ∧ (sl_array (growslice zero slack h s x).2 = Some a0 →
       sl_len s0 ≤ sl_len (growslice zero slack h s x).2)).
  { unfold growslice. simpl. rewrite lookup_app_l by done.
    rewrite length_app. simpl. split; [done|]. split; [lia|].
    intros [= ?]. lia. }
  unfold go_append. destruct (sl_array s) as [a|] eqn:Ha; [|done].
  destruct (sl_len s <? sl_cap s) eqn:Hlt; [|done]. simpl.
  rewrite length_alter. split; [|split; [done|]].
  - destruct (decide (a = a0)) as [->|Hne].
    + rewrite list_lookup_alter_eq. specialize (Hle eq_refl).
      destruct (h !! a0) as [arr|]; simpl; [|done].
      by rewrite take_insert_ge by lia.
    + by rewrite list_lookup_alter_ne.
  - intros [= ->]. specialize (Hle eq_refl). lia.
Qed.

Lemma slice_ok_covered h s : slice_ok h s = true → covered h s s.
Proof.
  unfold slice_ok, covered. destruct (sl_array s) as [a|]; [|done].
  destruct (h !! a) as [arr|] eqn:Harr; [|done].
  intros _. split; [by eapply lookup_lt_Some | done].
Qed.
End SliceFacts.


(** ** The registry *)

Section AuthFacts.
Context `{Packages}.
Implicit Types (st : state) (s : Service) (w : ResponseWriter) (r : Request).

Lemma same_settings_refl s : same_settings s s.
Proof. done. Qed.

Lemma same_settings_trans s1 s2 s3 :
  same_settings s1 s2 → same_settings s2 s3 → same_settings s1 s3.
Proof. unfold same_settings. intuition congruence. Qed.

Lemma same_settings_params s s' cid csecret :
  same_settings s s' → params_of s' cid csecret = params_of s cid csecret.
Proof. intros (Ho & Hj & Ha & Hi). unfold params_of. congruence. Qed.

Lemma same_settings_descriptor s s' call :
  same_settings s s' → descriptor_of s' call = descriptor_of s call.
Proof.
  intros Hs. destruct call as [[name cid] csecret]. unfold descriptor_of.
  by rewrite (same_settings_params s s').
Qed.

Lemma same_settings_omap s s' (calls : list registration) :
  same_settings s s' →
  omap (descriptor_of s') calls = omap (descriptor_of s) calls.
Proof.
  intros Hs. induction calls as [|call calls IH]; csimpl; [done|].
  by rewrite IH, (same_settings_descriptor s s').
Qed.

(** The state a fresh service starts from satisfies the invariant. *)
Lemma NewService_state_ok (o : Opts) s :
  NewService o = (Some s, None) → state_ok (initial s) ∧ registry (initial s) = [].
Proof.
  unfold NewService. destruct (SecretReader o); [|done].
  intros [= <-]. unfold state_ok, registry.
  by destruct (String.eqb (Issuer o) ""), (AvatarStore o).
Qed.

(** One registration step: [append] followed by the push into the
    middleware. Headers taken earlier keep their view. *)
Lemma push_append_provider st (x : provider_Service) :
  state_ok st →
  let st' := push_providers (append_provider st x) in
  registry st' = registry st ++ [x]
  ∧ state_ok st'
  ∧ same_settings (svc st) (svc st')
  ∧ ∀ old : slice, covered (heap st) old (providers (svc st)) →
      slice_elems (heap st') old = slice_elems (heap st) old
      ∧ covered (heap st') old (providers (svc st')).
Proof.
  intros [Hok Hsync]. unfold push_providers, append_provider, registry, state_ok.
  pose proof (go_append_elems provider_zero growslice_slack
                (heap st) (providers (svc st)) x Hok) as [Hel Hok'].
  pose proof (λ old, go_append_covered provider_zero growslice_slack
                (heap st) (providers (svc st)) old x Hok) as Hcov.
  destruct (go_append provider_zero growslice_slack
              (heap st) (providers (svc st)) x) as [h' sl'].
  simpl in *. split; [done|]. split; [done|]. split; [done|].
  intros old Hold. by apply Hcov.
Qed.

(** [AddProvider] appends the descriptor of the call, if the name is of a
    supported kind, and nothing otherwise. *)
Lemma AddProvider_registry st (name cid csecret : string) :
  state_ok st →
  let st' := AddProvider st name cid csecret in
  registry st'
    = registry st ++ option_list (descriptor_of (svc st) (name, cid, csecret))
  ∧ state_ok st'
  ∧ same_settings (svc st) (svc st')
  ∧ ∀ old : slice, covered (heap st) old (providers (svc st)) →
      slice_elems (heap st') old = slice_elems (heap st) old
      ∧ covered (heap st') old (providers (svc st')).
Proof.
  intros Hok. unfold AddProvider, descriptor_of, constructor_of.
  repeat (destruct (String.eqb (strings_ToLower name) _);
          [by apply push_append_provider|]).
  simpl. rewrite app_nil_r. done.
Qed.

(** A sequence of registrations appends the descriptors call by call. *)
Lemma AddProviders_registry st (calls : list registration) :
  state_ok st →
  let st' := AddProviders st calls in
  registry st' = registry st ++ omap (descriptor_of (svc st)) calls
  ∧ state_ok st'
  ∧ same_settings (svc st) (svc st')
  ∧ ∀ old : slice, covered (heap st) old (providers (svc st)) →
      slice_elems (heap st') old = slice_elems (heap st) old
      ∧ covered (heap st') old (providers (svc st')).
Proof.
  revert st. unfold AddProviders.
  induction calls as [|[[name cid] csecret] calls IH]; intros st Hok;
    cbn [foldl].
  - simpl. rewrite app_nil_r. done.
  - destruct (AddProvider_registry st name cid csecret Hok)
      as (Hreg & Hok1 & Hset & Hcov).
    destruct (IH _ Hok1) as (Hreg' & Hok' & Hset' & Hcov').
    split; [|split; [done|split; [by eapply same_settings_trans|]]].
    + rewrite Hreg', Hreg, <- app_assoc. f_equal.
      rewrite (same_settings_omap _ _ calls Hset).
      generalize (descriptor_of (svc st)). intros f. csimpl.
      by destruct (f (name, cid, csecret)).
    + intros s0 Hs0. destruct (Hcov s0 Hs0) as [He Hc].
      destruct (Hcov' s0 Hc) as [He' Hc']. split; [congruence | done].
Qed.

(** The loop of the [list] branch collects the names in order. *)
Lemma list_loop_names (ps : list provider_Service) (acc : list string) :
  foldl (λ list p, list ++ [provider_Name p]) acc ps
    = acc ++ map provider_Name ps.
Proof.
  revert acc. induction ps as [|p ps IH]; intros acc; simpl.
  - by rewrite app_nil_r.
  - by rewrite IH, <- app_assoc.
Qed.

Lemma Provider_scan_None (name : string) (ps : list provider_Service) :
  (∀ p, p ∈ ps → provider_Name p ≠ name) → Provider_scan name ps = None.
Proof.
  induction ps as [|p ps IH]; intros Hno; simpl; [done|].
  destruct (String.eqb_spec (provider_Name p) name) as [Heq|_].
  - exfalso. by apply (Hno p); [left|].
  - apply IH. intros q Hq. apply Hno. by right.
Qed.

Lemma Provider_scan_Some (name : string) (ps : list provider_Service) p :
  Provider_scan name ps = Some p → p ∈ ps ∧ provider_Name p = name.
Proof.
  induction ps as [|q ps IH]; simpl; [done|].
  destruct (String.eqb_spec (provider_Name q) name) as [Heq|_].
  - intros [= <-]. split; [left | done].
  - intros [? ?]%IH. split; [by right | done].
Qed.
(** ** The dispatcher *)

(** With fewer than two segments the request is rejected at once. *)
Lemma providerHandler_short st w r :
  length (strings_Split (URL_Path r) "/") < 2 →
  providerHandler st w r = Done (rw_WriteHeader StatusBadRequest w).
Proof.
  intros Hlen. unfold providerHandler.
  by destruct (Nat.ltb_spec (length (strings_Split (URL_Path r) "/")) 2);
    [|lia].
Qed.

(** With two segments or more the final one selects the branch. *)
Lemma providerHandler_final st w r (final : string) :
  2 ≤ length (strings_Split (URL_Path r) "/") →
  last (strings_Split (URL_Path r) "/") = Some final →
  providerHandler st w r =
    if String.eqb final "list" then
      Done (rest_RenderJSON w r (StringList (map provider_Name (registry st))))
    else if String.eqb final "logout" then
      index (registry st) 0 (λ p, TailCall (ProviderHandler p) w r)
    else
      index (strings_Split (URL_Path r) "/")
        (length (strings_Split (URL_Path r) "/") - 2) (λ provName,
          match Provider st provName with
          | (p, None) => TailCall (ProviderHandler p) w r
          | (_, Some _) =>
              Done (rest_RenderJSON (rw_WriteHeader StatusBadRequest w) r
                      (JSONObject
                         [("error",
                           "provider " +:+ provName +:+ " not supported")]))
          end).
Proof.
  intros Hlen Hlast. unfold providerHandler.
  destruct (Nat.ltb_spec (length (strings_Split (URL_Path r) "/")) 2);
    [lia|].
  rewrite last_lookup in Hlast. unfold index at 1.
  replace (length (strings_Split (URL_Path r) "/") - 1)
    with (pred (length (strings_Split (URL_Path r) "/"))) by lia.
  rewrite Hlast. by rewrite list_loop_names.
Qed.

(** A path that ends in [[name; final]] has [name] as its second-to-last
    segment. *)
Lemma second_to_last (pre : list string) (name final : string) :
  (pre ++ [name; final]) !! (length (pre ++ [name; final]) - 2) = Some name.
Proof.
  rewrite length_app. simpl.
  replace (length pre + 2 - 2) with (length pre + 0) by lia.
  by rewrite lookup_app_r, Nat.add_comm, Nat.add_sub by lia.
Qed.
End AuthFacts.

(** ** Concrete runs *)

#[export] Existing Instance sample_handles | 100.
#[export] Existing Instance sample_packages | 100.

(** [NewService] on the sample options returns the sample service. *)
Lemma NewService_sample (iss : string) (store : option unit) :
  NewService (sample_opts iss store) = (Some (sample_service iss store), None).
Proof.
  unfold NewService, sample_service, sample_opts. cbn.
  destruct (String.eqb iss ""), store; reflexivity.
Qed.

(** * The claims *)

(** C1. A [logout] request against a service with no provider registered
    does not get a fallback response from the dispatcher: [s.providers[0]]
    is evaluated on the empty registry and the handler panics. *)
Theorem logout_on_empty_registry_panics `{Packages}
    (st0 st : state) (w : ResponseWriter) (r : Request) :
  registry st = [] →
  2 ≤ length (strings_Split (URL_Path r) "/") →
  last (strings_Split (URL_Path r) "/") = Some "logout" →
  (Handlers st0).1 st w r = Panic index_out_of_range.
Proof.
  intros Hreg Hlen Hlast. simpl.
  rewrite (providerHandler_final st w r "logout" Hlen Hlast). simpl.
  unfold index. by rewrite Hreg.
Qed.

Lemma logout_on_empty_registry_panics_witness :
  (Handlers (initial (sample_service "" None))).1
    (initial (sample_service "" None)) new_writer (GET "/auth/logout")
  = Panic index_out_of_range.
Proof.
  apply logout_on_empty_registry_panics;
    [reflexivity | simpl; lia | reflexivity].
Defined.

(** C2. For a service built without an avatar store, the avatar handler
    that [Handlers] returns is the method value of a [nil] proxy: it panics
    on every request instead of answering it. *)
Theorem avatar_handler_without_store_panics `{Packages}
    (o : Opts) (s : Service) (w : ResponseWriter) (r : Request) :
  AvatarStore o = None →
  NewService o = (Some s, None) →
  (Handlers (initial s)).2 w r = Panic nil_dereference.
Proof.
  unfold NewService. intros Hstore. rewrite Hstore.
  destruct (SecretReader o); [|done].
  intros [= <-]. by destruct (String.eqb (Issuer o) "").
Qed.

Lemma avatar_handler_without_store_panics_witness :
  (Handlers (initial (sample_service "" None))).2 new_writer
    (GET "/avatar/some-id")
  = Panic nil_dereference.
Proof.
  apply (avatar_handler_without_store_panics (sample_opts "" None));
    reflexivity.
Defined.

(** C3, as stated, fails: a middleware value obtained before a registration
    is a copy of the struct with the slice header of that moment. After
    [AddProvider("dev", ...)] it still shows no provider, while the value
    obtained afterwards shows the new one. *)
Lemma middleware_taken_before_misses_registration :
  let st := initial (sample_service "" None) in
  let before := Middleware st in
  let st' := AddProviders st [("dev", "cid", "csecret")] in
  let after := Middleware st' in
  middleware_view st' before = []
  ∧ middleware_view st' after
    = [mkDescriptor "dev" "cid" "csecret" "go-pkgz/auth"]
  ∧ middleware_view st' before ≠ middleware_view st' after.
Proof. vm_compute. repeat split. discriminate. Qed.

(** C3, amended. After any sequence of [AddProvider] calls the registry is
    the old one followed by the descriptors of the calls; the service's
    middleware holds the registry's own slice header, so the value
    [Middleware] returns afterwards shows the whole registry; a value
    obtained before the calls keeps showing the registry as it was then. *)
Theorem middleware_view_follows_registry `{Packages}
    (st : state) (calls : list registration) :
  state_ok st →
  let st' := AddProviders st calls in
  registry st' = registry st ++ omap (descriptor_of (svc st)) calls
  ∧ Authenticator_Providers (Middleware st') = providers (svc st')
  ∧ middleware_view st' (Middleware st') = registry st'
  ∧ middleware_view st' (Middleware st) = registry st.
Proof.
  intros Hok st'.
  destruct (AddProviders_registry st calls Hok) as (Hreg & Hok' & _ & Hcov).
  fold st' in Hreg, Hok', Hcov.
  destruct Hok as [Hsl Hsync], Hok' as [_ Hsync'].
  unfold middleware_view, Middleware. rewrite Hsync, Hsync'.
  repeat split; [done|].
  by apply Hcov, slice_ok_covered.
Qed.

Lemma middleware_view_follows_registry_witness :
  let st := initial (sample_service "" None) in
  let st' := AddProviders st [("dev", "cid", "csecret"); ("github", "id", "key")] in
  registry st' = registry st ++ omap (descriptor_of (svc st))
                   [("dev", "cid", "csecret"); ("github", "id", "key")]
  ∧ Authenticator_Providers (Middleware st') = providers (svc st')
  ∧ middleware_view st' (Middleware st') = registry st'
  ∧ middleware_view st' (Middleware st) = registry st.
Proof.
  apply (middleware_view_follows_registry (initial (sample_service "" None))).
  split; reflexivity.
Defined.

(** C4. [NewService] assigns the issuer only in the branch for an empty
    [Issuer] option: the service's issuer is the fallback when the option is
    empty and stays the empty string when an issuer is configured. *)
Theorem NewService_issuer `{Packages} (o : Opts) (s : Service) :
  NewService o = (Some s, None) →
  issuer s = if String.eqb (Issuer o) "" then "go-pkgz/auth" else "".
Proof.
  unfold NewService. destruct (SecretReader o); [|done].
  intros [= <-]. by destruct (String.eqb (Issuer o) ""), (AvatarStore o).
Qed.

Lemma NewService_issuer_witness :
  issuer (sample_service "my-test-app" None) = "".
Proof.
  apply (NewService_issuer (sample_opts "my-test-app" None)). reflexivity.
Defined.

(** C5. [NewService] returns an error, and no service, exactly when the
    options carry no [SecretReader]; it never returns both or neither.
    The check comes first: on the failing path no other package has been
    called, and the one call of the succeeding path, [token.NewService],
    follows the check. With a [SecretReader] the service returned is
    assembled from the options: the options themselves, the token service
    built from them, an empty registry, a middleware over the same token
    service with the options' validator and development password and an
    empty provider view, the avatar proxy of the configured store at
    [/avatar] if there is one, and the issuer as [NewService] resolves it. *)
Theorem NewService_fails_iff_no_SecretReader `{Packages} (o : Opts) :
  (SecretReader o = None
   ↔ NewService o = (None, Some "SecretReader not defined"))
  ∧ (SecretReader o ≠ None
     ↔ ∃ s, NewService o = (Some s, None)
            ∧ opts s = o
            ∧ jwtService s = token_NewService (token_opts_of o)
            ∧ providers s = nil_slice
            ∧ authMiddleware s
              = {| Authenticator_JWTService :=
                     token_NewService (token_opts_of o);
                   Authenticator_Validator := Validator o;
                   Authenticator_DevPasswd := DevPasswd o;
                   Authenticator_Providers := nil_slice |}
            ∧ avatarProxy s
              = match AvatarStore o with
                | Some store => Some (mkProxy store (URL o) "/avatar")
                | None => None
                end
            ∧ issuer s
              = if String.eqb (Issuer o) "" then "go-pkgz/auth" else "")
  ∧ (∀ s e, NewService o ≠ (Some s, Some e))
  ∧ NewService o ≠ (None, None)
  ∧ (NewService_traced o).2 = NewService o
  ∧ ((NewService_traced o).1 = [] ↔ SecretReader o = None)
  ∧ (SecretReader o ≠ None
     ↔ (NewService_traced o).1
       = [call_token_NewService (token_opts_of o)]).
Proof.
  unfold NewService, NewService_traced, token_opts_of.
  destruct (SecretReader o) as [sr|].
  - repeat split; try done.
    intros _. eexists. split; [done|].
    by destruct (String.eqb (Issuer o) ""), (AvatarStore o).
  - repeat split; try done.
    intros (s & Hs & _). done.
Qed.

(** C6, as stated, fails on its own example: [/singleseg] splits into two
    segments, the empty one before the slash and [singleseg]; the request
    is dispatched to the provider named by the empty segment, and the
    answer carries a JSON body. *)
Lemma singleseg_behind_a_slash_gets_a_body :
  strings_Split "/singleseg" "/" = [""; "singleseg"]
  ∧ providerHandler (initial (sample_service "" None)) new_writer
      (GET "/singleseg")
    = Done (mkWriter (Some 400)
              (sample_json (JSONObject [("error", "provider  not supported")])))
  ∧ sample_json (JSONObject [("error", "provider  not supported")]) ≠ "".
Proof. vm_compute. repeat split. discriminate. Qed.

(** C6, amended. A request whose path splits on [/] into fewer than two
    segments, which is a path without any slash, is answered with status
    400 and an empty body. *)
Theorem request_without_slash_is_bad `{Packages} (st0 st : state) (r : Request) :
  length (strings_Split (URL_Path r) "/") < 2 →
  string_contains "/" (URL_Path r) = false
  ∧ (Handlers st0).1 st new_writer r
    = Done (mkWriter (Some StatusBadRequest) "").
Proof.
  intros Hlen. split; [by apply strings_Split_length|].
  simpl. by rewrite providerHandler_short.
Qed.

Lemma request_without_slash_is_bad_witness :
  string_contains "/" "singleseg" = false
  ∧ (Handlers (initial (sample_service "" None))).1
      (initial (sample_service "" None)) new_writer (GET "singleseg")
    = Done (mkWriter (Some 400) "").
Proof.
  apply (request_without_slash_is_bad (initial (sample_service "" None))
           (initial (sample_service "" None)) (GET "singleseg")).
  simpl. lia.
Defined.

(** C7, as stated, fails for the requests [<name>/logout] and
    [<name>/list]: with [dev] registered and no provider [foo], the direct
    lookup of [foo] fails, but the request [/auth/foo/logout] is handed to
    [dev] and [/auth/foo/list] is answered 200 with the list; neither gets
    the status 400 and the [not supported] body. *)
Lemma unknown_provider_before_logout_is_not_rejected :
  let st :=
    AddProviders (initial (sample_service "" None))
      [("dev", "cid", "csecret")] in
  registry st = [mkDescriptor "dev" "cid" "csecret" "go-pkgz/auth"]
  ∧ (Provider st "foo").2 = Some "provider foo not found"
  ∧ strings_Split "/auth/foo/logout" "/" = [""; "auth"; "foo"; "logout"]
  ∧ providerHandler st new_writer (GET "/auth/foo/logout")
    = TailCall
        (ProviderHandler (mkDescriptor "dev" "cid" "csecret" "go-pkgz/auth"))
        new_writer (GET "/auth/foo/logout")
  ∧ providerHandler st new_writer (GET "/auth/foo/list")
    = Done (mkWriter (Some 200) (sample_json (StringList ["dev"]))).
Proof. vm_compute. done. Qed.

(** C7, amended. When no registered descriptor has the name, [Provider]
    returns the error [provider <name> not found], and a request that names
    the provider in its second-to-last segment and whose final segment is
    neither [list] nor [logout] is answered with status 400 and the JSON
    object whose [error] field is [provider <name> not supported]. The two
    messages differ. *)
Theorem unknown_provider_messages `{Packages} (st : state) (name : string) :
  (∀ p, p ∈ registry st → provider_Name p ≠ name) →
  (Provider st name).2 = Some ("provider " +:+ name +:+ " not found")
  ∧ (∀ (st0 : state) (r : Request) (pre : list string) (final : string),
       strings_Split (URL_Path r) "/" = pre ++ [name; final] →
       final ≠ "list" → final ≠ "logout" →
       (Handlers st0).1 st new_writer r
       = Done (mkWriter (Some StatusBadRequest)
                 (json_Marshal
                    (JSONObject
                       [("error",
                         "provider " +:+ name +:+ " not supported")]))))
  ∧ "provider " +:+ name +:+ " not found"
    ≠ "provider " +:+ name +:+ " not supported".
Proof.
  intros Hno.
  assert (HP : Provider st name
               = (provider_zero,
                  Some ("provider " +:+ name +:+ " not found"))).
  { unfold Provider. by rewrite Provider_scan_None. }
  split; [by rewrite HP|]. split.
  - intros st0 r pre final Hsplit Hlist Hlogout. simpl.
    rewrite (providerHandler_final st new_writer r final).
    + apply String.eqb_neq in Hlist, Hlogout. rewrite Hlist, Hlogout.
      unfold index. rewrite Hsplit, second_to_last, HP. done.
    + rewrite Hsplit, length_app. simpl. lia.
    + rewrite Hsplit.
      replace (pre ++ [name; final]) with ((pre ++ [name]) ++ [final])
        by (by rewrite <- app_assoc).
      apply last_snoc.
  - intros Heq. apply string_app_inv_head in Heq.
    apply string_app_inv_head in Heq. discriminate.
Qed.

Lemma unknown_provider_messages_witness :
  let st :=
    AddProviders (initial (sample_service "" None))
      [("dev", "cid", "csecret"); ("github", "id", "key")] in
  (Provider st "foo").2 = Some "provider foo not found"
  ∧ (Handlers st).1 st new_writer (GET "/auth/foo/login")
    = Done (mkWriter (Some 400)
              (sample_json (JSONObject [("error", "provider foo not supported")]))).
Proof.
  intros st.
  destruct (unknown_provider_messages st "foo")
    as (Hfound & Hsupported & _).
  - intros p Hp.
    change (p ∈ [mkDescriptor "dev" "cid" "csecret" "go-pkgz/auth";
                 mkDescriptor "github" "id" "key" "go-pkgz/auth"]) in Hp.
    apply elem_of_cons in Hp as [->|Hp]; [discriminate|].
    apply list_elem_of_singleton in Hp as ->. discriminate.
  - split; [exact Hfound|].
    apply (Hsupported st (GET "/auth/foo/login") [""; "auth"] "login");
      [reflexivity | discriminate | discriminate].
Defined.

(** C8, as stated, fails for the path [list] itself: its final segment is
    [list], but it has a single segment, so the guard on the number of
    segments answers 400 with an empty body before the [list] branch. *)
Lemma bare_list_path_is_bad_request :
  let st :=
    AddProviders (initial (sample_service "" None))
      [("dev", "cid", "csecret"); ("github", "id", "key")] in
  last (strings_Split "list" "/") = Some "list"
  ∧ providerHandler st new_writer (GET "list")
    = Done (mkWriter (Some 400) "").
Proof. vm_compute. done. Qed.

(** C8, amended. After any sequence of [AddProvider] calls on a new service,
    a request of two segments or more whose final segment is [list] is
    answered with status 200 and the JSON array of the names of the
    registered descriptors, in the order of the calls, a name once for each
    call that registered it. *)
Theorem list_names_in_registration_order `{Packages}
    (o : Opts) (s : Service) (calls : list registration)
    (st0 : state) (r : Request) :
  NewService o = (Some s, None) →
  2 ≤ length (strings_Split (URL_Path r) "/") →
  last (strings_Split (URL_Path r) "/") = Some "list" →
  registry (AddProviders (initial s) calls) = omap (descriptor_of s) calls
  ∧ (Handlers st0).1 (AddProviders (initial s) calls) new_writer r
    = Done (mkWriter (Some StatusOK)
              (json_Marshal
                 (StringList
                    (map provider_Name (omap (descriptor_of s) calls))))).
Proof.
  intros Hnew Hlen Hlast.
  destruct (NewService_state_ok o s Hnew) as [Hok Hempty].
  destruct (AddProviders_registry (initial s) calls Hok) as (Hreg & _).
  rewrite Hempty in Hreg. simpl in Hreg. split; [done|]. simpl.
  rewrite (providerHandler_final _ new_writer r "list" Hlen Hlast). simpl.
  by rewrite Hreg.
Qed.

Lemma list_names_in_registration_order_witness :
  let calls :=
    [("dev", "cid", "csecret"); ("github", "id", "key");
     ("unknown", "", ""); ("dev", "cid2", "csecret2")] in
  registry (AddProviders (initial (sample_service "" None)) calls)
    = omap (descriptor_of (sample_service "" None)) calls
  ∧ (Handlers (initial (sample_service "" None))).1
      (AddProviders (initial (sample_service "" None)) calls)
      new_writer (GET "/auth/list")
    = Done (mkWriter (Some 200)
              (sample_json (StringList ["dev"; "github"; "dev"]))).
Proof.
  intros calls.
  refine (list_names_in_registration_order (sample_opts "" None)
            (sample_service "" None) calls (initial (sample_service "" None))
            (GET "/auth/list") _ _ _);
    [reflexivity | simpl; lia | reflexivity].
Defined.

(** C9. [AddProvider] with the name [yandex] appends the descriptor that
    [provider.NewFacebook] builds from the shared parameters, exactly as it
    does for the name [facebook]. *)
Theorem yandex_registers_facebook_descriptor `{Packages}
    (st : state) (cid csecret : string) :
  state_ok st →
  registry (AddProvider st "yandex" cid csecret)
    = registry st ++ [provider_NewFacebook (params_of (svc st) cid csecret)]
  ∧ AddProvider st "yandex" cid csecret
    = AddProvider st "facebook" cid csecret.
Proof.
  intros Hok. split; [|reflexivity].
  by destruct (AddProvider_registry st "yandex" cid csecret Hok) as [-> _].
Qed.

Lemma yandex_registers_facebook_descriptor_witness :
  registry (AddProvider (initial (sample_service "" None)) "yandex" "cid" "csecret")
    = [mkDescriptor "facebook" "cid" "csecret" "go-pkgz/auth"]
  ∧ AddProvider (initial (sample_service "" None)) "yandex" "cid" "csecret"
    = AddProvider (initial (sample_service "" None)) "facebook" "cid" "csecret".
Proof.
  refine (yandex_registers_facebook_descriptor
            (initial (sample_service "" None)) "cid" "csecret" _).
  split; reflexivity.
Defined.




(** * Further properties of [auth.go] *)

(** ** Lemmas on paths, names and lookups *)

(** A string without the separator is its own single segment. *)
Lemma strings_Split_whole (s : string) (sep : ascii) :
  string_contains sep s = false → strings_Split s sep = [s].
Proof.
  induction s as [|c s IH]; simpl; [done|].
  destruct (Ascii.eqb c sep); simpl; [done|].
  intros Hs. by rewrite (IH Hs).
Qed.

(** Splitting distributes over a separator between two strings. *)
Lemma strings_Split_app (a b : string) (sep : ascii) :
  strings_Split (a +:+ String sep b) sep
  = strings_Split a sep ++ strings_Split b sep.
Proof.
  induction a as [|c a IH]; simpl.
  - by rewrite Ascii.eqb_refl.
  - destruct (Ascii.eqb c sep); [by rewrite IH|].
    rewrite IH. pose proof (strings_Split_nonempty a sep).
    by destruct (strings_Split a sep).
Qed.

(** The segments of [prefix/name/action]. *)
Lemma strings_Split_provider_path (prefix name action : string) :
  string_contains "/" name = false →
  string_contains "/" action = false →
  strings_Split (prefix +:+ "/" +:+ name +:+ "/" +:+ action) "/"
  = strings_Split prefix "/" ++ [name; action].
Proof.
  intros Hname Haction.
  change (prefix +:+ "/" +:+ name +:+ "/" +:+ action)
    with (prefix +:+ String "/" (name +:+ String "/" action)).
  rewrite !strings_Split_app.
  by rewrite (strings_Split_whole name), (strings_Split_whole action).
Qed.

Lemma ascii_lower_stays_ascii (c : ascii) :
  is_ascii c = true → is_ascii (ascii_lower c) = true.
Proof. by destruct c as [[] [] [] [] [] [] [] []]. Qed.

Lemma ascii_lower_idempotent (c : ascii) :
  ascii_lower (ascii_lower c) = ascii_lower c.
Proof. by destruct c as [[] [] [] [] [] [] [] []]. Qed.

Section LookupFacts.
Context `{Packages}.
Implicit Types (st : state) (ps : list provider_Service).

(** Lower-casing an ASCII string twice is lower-casing it once. *)
Lemma strings_ToLower_idempotent (s : string) :
  string_forallb is_ascii s = true →
  strings_ToLower (strings_ToLower s) = strings_ToLower s.
Proof.
  intros Hs. unfold strings_ToLower. rewrite Hs.
  assert (Hlow : string_forallb is_ascii (string_map ascii_lower s) = true).
  { induction s as [|c s IH]; simpl in *; [done|].
    apply andb_prop in Hs as [Hc Hs].
    by rewrite ascii_lower_stays_ascii, IH. }
  rewrite Hlow. clear. induction s as [|c s IH]; simpl; [done|].
  by rewrite ascii_lower_idempotent, IH.
Qed.

(** The scan finds [p] exactly when [p] is the first descriptor of that
    name. *)
Lemma Provider_scan_first (name : string) ps (p : provider_Service) :
  Provider_scan name ps = Some p
  ↔ ∃ before after,
      ps = before ++ p :: after
      ∧ provider_Name p = name
      ∧ ∀ q, q ∈ before → provider_Name q ≠ name.
Proof.
  induction ps as [|q ps IH]; simpl.
  - split; [done|]. intros (before & after & Hps & _).
    by destruct before.
  - destruct (String.eqb_spec (provider_Name q) name) as [Heq|Hne].
    + split.
      * intros [= <-]. exists [], ps. split; [done|]. split; [done|].
        intros ? []%elem_of_nil.
      * intros ([|q' before] & after & Hps & Hname & Hfirst).
        -- by injection Hps as -> _.
        -- injection Hps as <- _. exfalso. apply (Hfirst q); [left | done].
    + rewrite IH. split.
      * intros (before & after & -> & Hname & Hfirst).
        exists (q :: before), after. split; [done|]. split; [done|].
        intros q' [->|Hq']%elem_of_cons; [done | by apply Hfirst].
      * intros ([|q' before] & after & Hps & Hname & Hfirst).
        -- injection Hps as -> _. done.
        -- injection Hps as <- ->. exists before, after.
           split; [done|]. split; [done|].
           intros q' Hq'. apply Hfirst. by right.
Qed.

(** A descriptor found stays the one found when the registry grows. *)
Lemma Provider_scan_app (name : string) ps more (p : provider_Service) :
  Provider_scan name ps = Some p → Provider_scan name (ps ++ more) = Some p.
Proof.
  induction ps as [|q ps IH]; simpl; [done|].
  by destruct (String.eqb (provider_Name q) name).
Qed.

Lemma Provider_Some st (name : string) (p : provider_Service) :
  Provider st name = (p, None) ↔ Provider_scan name (registry st) = Some p.
Proof.
  unfold Provider. destruct (Provider_scan name (registry st)) as [q|].
  - split; by intros [= ->].
  - done.
Qed.

(** A lookup that succeeds keeps its result under further registrations. *)
Lemma Provider_AddProviders st (calls : list registration)
    (name : string) (p : provider_Service) :
  state_ok st →
  Provider st name = (p, None) →
  Provider (AddProviders st calls) name = (p, None).
Proof.
  intros Hok Hp. apply Provider_Some. apply Provider_Some in Hp.
  destruct (AddProviders_registry st calls Hok) as [-> _].
  by apply Provider_scan_app.
Qed.

(** [AddProvider] assigns [providers] and the middleware's [Providers],
    and nothing else of the service. *)
Lemma AddProvider_frame st (name cid csecret : string) :
  let st' := AddProvider st name cid csecret in
  same_settings (svc st) (svc st')
  ∧ Authenticator_JWTService (authMiddleware (svc st'))
    = Authenticator_JWTService (authMiddleware (svc st))
  ∧ Authenticator_Validator (authMiddleware (svc st'))
    = Authenticator_Validator (authMiddleware (svc st))
  ∧ Authenticator_DevPasswd (authMiddleware (svc st'))
    = Authenticator_DevPasswd (authMiddleware (svc st)).
Proof.
  assert (Hstep : ∀ x,
    let st' := push_providers (append_provider st x) in
    same_settings (svc st) (svc st')
    ∧ Authenticator_JWTService (authMiddleware (svc st'))
      = Authenticator_JWTService (authMiddleware (svc st))
    ∧ Authenticator_Validator (authMiddleware (svc st'))
      = Authenticator_Validator (authMiddleware (svc st))
    ∧ Authenticator_DevPasswd (authMiddleware (svc st'))
      = Authenticator_DevPasswd (authMiddleware (svc st))).
  { intros x. unfold push_providers, append_provider.
    by destruct (go_append provider_zero growslice_slack
                   (heap st) (providers (svc st)) x). }
  unfold AddProvider.
  repeat (destruct (String.eqb (strings_ToLower name) _); [by apply Hstep|]).
  done.
Qed.

Lemma AddProviders_frame st (calls : list registration) :
  let st' := AddProviders st calls in
  same_settings (svc st) (svc st')
  ∧ Authenticator_JWTService (authMiddleware (svc st'))
    = Authenticator_JWTService (authMiddleware (svc st))
  ∧ Authenticator_Validator (authMiddleware (svc st'))
    = Authenticator_Validator (authMiddleware (svc st))
  ∧ Authenticator_DevPasswd (authMiddleware (svc st'))
    = Authenticator_DevPasswd (authMiddleware (svc st)).
Proof.
  revert st. unfold AddProviders.
  induction calls as [|[[name cid] csecret] calls IH]; intros st;
    cbn [foldl]; [done|].
  destruct (AddProvider_frame st name cid csecret) as (Hs & Hj & Hv & Hd).
  destruct (IH (AddProvider st name cid csecret)) as (Hs' & Hj' & Hv' & Hd').
  split; [by eapply same_settings_trans|].
  split; [congruence|]. split; congruence.
Qed.

(** A scan that finds nothing has seen no descriptor of the name. *)
Lemma Provider_scan_None_inv (name : string) ps :
  Provider_scan name ps = None → ∀ q, q ∈ ps → provider_Name q ≠ name.
Proof.
  induction ps as [|x ps IH]; simpl; intros Hscan q Hq.
  - by apply elem_of_nil in Hq.
  - destruct (String.eqb_spec (provider_Name x) name); [done|].
    apply elem_of_cons in Hq as [->|Hq]; [done | by apply IH].
Qed.

(** With two segments or more there is a second-to-last one. *)
Lemma second_to_last_exists (elems : list string) :
  2 ≤ length elems → ∃ provName, elems !! (length elems - 2) = Some provName.
Proof. intros Hlen. apply lookup_lt_is_Some. lia. Qed.
End LookupFacts.

(** ** Lookup *)

(** X1. [Provider] succeeds with [p] exactly when [p] is the first
    descriptor of the registry that bears the name; it fails exactly when
    no descriptor bears it. *)
Theorem Provider_returns_first_match `{Packages}
    (st : state) (name : string) (p : provider_Service) :
  (Provider st name = (p, None)
   ↔ ∃ before after,
       registry st = before ++ p :: after
       ∧ provider_Name p = name
       ∧ ∀ q, q ∈ before → provider_Name q ≠ name)
  ∧ ((Provider st name).2 = None
     ↔ ∃ q, q ∈ registry st ∧ provider_Name q = name).
Proof.
  split; [by rewrite Provider_Some, Provider_scan_first|].
  unfold Provider.
  destruct (Provider_scan name (registry st)) as [q|] eqn:Hscan; simpl.
  - split; [|done]. intros _. exists q. by apply Provider_scan_Some.
  - split; [done|]. intros (q & Hq & Hname). exfalso.
    induction (registry st) as [|x l IH]; [by apply elem_of_nil in Hq|].
    simpl in Hscan.
    destruct (String.eqb_spec (provider_Name x) name); [done|].
    apply elem_of_cons in Hq as [->|Hq]; [done | by apply IH].
Qed.

(** X2. Registering further providers never changes the result of a lookup
    that succeeded: a later descriptor of the same name does not replace
    the one found. *)
Theorem Provider_stable_under_registration `{Packages}
    (st : state) (calls : list registration)
    (name : string) (p : provider_Service) :
  state_ok st →
  Provider st name = (p, None) →
  Provider (AddProviders st calls) name = (p, None).
Proof. apply Provider_AddProviders. Qed.

Lemma Provider_stable_under_registration_witness :
  Provider
    (AddProviders
       (AddProviders (initial (sample_service "" None))
          [("dev", "cid", "csecret")])
       [("dev", "cid2", "csecret2"); ("github", "id", "key")])
    "dev"
  = (mkDescriptor "dev" "cid" "csecret" "go-pkgz/auth", None).
Proof.
  refine (Provider_stable_under_registration
            (AddProviders (initial (sample_service "" None))
               [("dev", "cid", "csecret")])
            [("dev", "cid2", "csecret2"); ("github", "id", "key")]
            "dev" _ _ _);
    [split; reflexivity | reflexivity].
Defined.

(** X3. A request that the dispatcher hands to a provider's handler is
    handed to the same provider, with the same writer and request, after any
    further registrations. *)
Theorem routing_stable_under_registration `{Packages}
    (st : state) (calls : list registration)
    (w w' : ResponseWriter) (r r' : Request) (c : callee) :
  state_ok st →
  providerHandler st w r = TailCall c w' r' →
  providerHandler (AddProviders st calls) w r = TailCall c w' r'.
Proof.
  intros Hok.
  destruct (Nat.lt_ge_cases (length (strings_Split (URL_Path r) "/")) 2)
    as [Hshort|Hlen].
  { by rewrite (providerHandler_short st w r Hshort). }
  destruct (last (strings_Split (URL_Path r) "/")) as [final|] eqn:Hlast.
  2:{ apply last_None in Hlast. by destruct (strings_Split_nonempty _ _ Hlast). }
  rewrite !(providerHandler_final _ w r final Hlen Hlast).
  destruct (String.eqb final "list"); [done|].
  destruct (AddProviders_registry st calls Hok) as [Hreg _].
  destruct (String.eqb final "logout").
  - unfold index. rewrite Hreg.
    destruct (registry st !! 0) as [p|] eqn:Hp; [|done].
    by rewrite (lookup_app_l_Some _ _ _ _ Hp).
  - unfold index.
    destruct (strings_Split (URL_Path r) "/"
                !! (length (strings_Split (URL_Path r) "/") - 2))
      as [provName|]; [|done].
    destruct (Provider st provName) as [p [err|]] eqn:HP; [done|].
    by rewrite (Provider_AddProviders st calls provName p Hok HP).
Qed.

Lemma routing_stable_under_registration_witness :
  providerHandler
    (AddProviders
       (AddProviders (initial (sample_service "" None))
          [("dev", "cid", "csecret")])
       [("github", "id", "key"); ("dev", "cid2", "csecret2")])
    new_writer (GET "/auth/dev/login")
  = TailCall
      (ProviderHandler (mkDescriptor "dev" "cid" "csecret" "go-pkgz/auth"))
      new_writer (GET "/auth/dev/login").
Proof.
  refine (routing_stable_under_registration
            (AddProviders (initial (sample_service "" None))
               [("dev", "cid", "csecret")])
            [("github", "id", "key"); ("dev", "cid2", "csecret2")]
            new_writer new_writer (GET "/auth/dev/login")
            (GET "/auth/dev/login") _ _ _);
    [split; reflexivity | reflexivity].
Defined.

(** X4. After [AddProvider] registered a descriptor, [Provider] finds a
    descriptor under that descriptor's name: the new one when the name was
    not registered before, the one registered first otherwise. *)
Theorem Provider_after_AddProvider `{Packages}
    (st : state) (name cid csecret : string) (d : provider_Service) :
  state_ok st →
  descriptor_of (svc st) (name, cid, csecret) = Some d →
  ∃ p, Provider (AddProvider st name cid csecret) (provider_Name d)
       = (p, None)
       ∧ provider_Name p = provider_Name d
       ∧ ((∀ q, q ∈ registry st → provider_Name q ≠ provider_Name d) → p = d)
       ∧ (∀ q, Provider st (provider_Name d) = (q, None) → p = q).
Proof.
  intros Hok Hd.
  destruct (AddProvider_registry st name cid csecret Hok) as [Hreg _].
  rewrite Hd in Hreg. simpl in Hreg.
  destruct (Provider_scan (provider_Name d) (registry st)) as [q|] eqn:Hscan.
  - exists q. destruct (Provider_scan_Some _ _ _ Hscan) as [Hq Hname].
    split; [|split; [done|split]].
    + apply Provider_Some. rewrite Hreg. by apply Provider_scan_app.
    + intros Hno. by destruct (Hno q Hq).
    + intros q' Hq'. apply Provider_Some in Hq'. congruence.
  - exists d. split; [|split; [done|split; [done|]]].
    + apply Provider_Some. rewrite Hreg. apply Provider_scan_first.
      exists (registry st), []. split; [done|]. split; [done|].
      by apply Provider_scan_None_inv.
    + intros q Hq. apply Provider_Some in Hq. congruence.
Qed.

Lemma Provider_after_AddProvider_witness :
  ∃ p, Provider
         (AddProvider
            (AddProviders (initial (sample_service "" None))
               [("dev", "cid", "csecret")])
            "dev" "cid2" "csecret2")
         "dev"
       = (p, None)
       ∧ descriptor_name p = "dev"
       ∧ ((∀ q, q ∈ registry
                      (AddProviders (initial (sample_service "" None))
                         [("dev", "cid", "csecret")]) →
                descriptor_name q ≠ "dev") →
          p = mkDescriptor "dev" "cid2" "csecret2" "go-pkgz/auth")
       ∧ (∀ q, Provider
                 (AddProviders (initial (sample_service "" None))
                    [("dev", "cid", "csecret")])
                 "dev"
               = (q, None) →
               p = q).
Proof.
  refine (Provider_after_AddProvider
            (AddProviders (initial (sample_service "" None))
               [("dev", "cid", "csecret")])
            "dev" "cid2" "csecret2"
            (mkDescriptor "dev" "cid2" "csecret2" "go-pkgz/auth") _ _);
    [split; reflexivity | reflexivity].
Defined.

(** ** Registration *)

(** X5. [AddProvider] selects the kind without regard to the case of ASCII
    letters: a call with an ASCII name has the effect of the call with the
    name in lower case. *)
Theorem AddProvider_ignores_ascii_case `{Packages}
    (st : state) (name cid csecret : string) :
  string_forallb is_ascii name = true →
  strings_ToLower name = string_map ascii_lower name
  ∧ AddProvider st name cid csecret
    = AddProvider st (strings_ToLower name) cid csecret.
Proof.
  intros Hascii. split.
  - unfold strings_ToLower. by rewrite Hascii.
  - unfold AddProvider. by rewrite (strings_ToLower_idempotent name Hascii).
Qed.

Lemma AddProvider_ignores_ascii_case_witness :
  strings_ToLower "GitHub" = "github"
  ∧ AddProvider (initial (sample_service "" None)) "GitHub" "id" "key"
    = AddProvider (initial (sample_service "" None)) "github" "id" "key".
Proof.
  refine (AddProvider_ignores_ascii_case
            (initial (sample_service "" None)) "GitHub" "id" "key" _).
  reflexivity.
Defined.

(** ** Dispatch *)

(** X6. A request for [prefix/name/action], where [action] is neither
    [list] nor [logout] and [name] is the name of a registered provider, is
    handed to the first provider of that name, the writer untouched and the
    request unchanged. *)
Theorem named_provider_receives_request `{Packages}
    (st : state) (w : ResponseWriter) (r : Request)
    (prefix name action : string) (p : provider_Service) :
  URL_Path r = prefix +:+ "/" +:+ name +:+ "/" +:+ action →
  string_contains "/" name = false →
  string_contains "/" action = false →
  action ≠ "list" → action ≠ "logout" →
  Provider st name = (p, None) →
  providerHandler st w r = TailCall (ProviderHandler p) w r.
Proof.
  intros Hpath Hname Haction Hlist Hlogout HP.
  pose proof (strings_Split_provider_path prefix name action Hname Haction)
    as Hsplit.
  rewrite <- Hpath in Hsplit.
  rewrite (providerHandler_final st w r action).
  - apply String.eqb_neq in Hlist, Hlogout. rewrite Hlist, Hlogout.
    unfold index. by rewrite Hsplit, second_to_last, HP.
  - rewrite Hsplit, length_app. simpl. lia.
  - rewrite Hsplit.
    replace (strings_Split prefix "/" ++ [name; action])
      with ((strings_Split prefix "/" ++ [name]) ++ [action])
      by (by rewrite <- app_assoc).
    apply last_snoc.
Qed.

Lemma named_provider_receives_request_witness :
  providerHandler
    (AddProviders (initial (sample_service "" None))
       [("github", "id", "key"); ("dev", "cid", "csecret")])
    new_writer (GET "/auth/dev/login")
  = TailCall
      (ProviderHandler (mkDescriptor "dev" "cid" "csecret" "go-pkgz/auth"))
      new_writer (GET "/auth/dev/login").
Proof.
  refine (named_provider_receives_request
            (AddProviders (initial (sample_service "" None))
               [("github", "id", "key"); ("dev", "cid", "csecret")])
            new_writer (GET "/auth/dev/login") "/auth" "dev" "login"
            (mkDescriptor "dev" "cid" "csecret" "go-pkgz/auth")
            _ _ _ _ _ _);
    [reflexivity | reflexivity | reflexivity
     | discriminate | discriminate | reflexivity].
Defined.

(** X7. The dispatcher panics in one situation only: a request of two
    segments or more whose final segment is [logout], while no provider is
    registered. The panic is the run-time's index error. *)
Theorem providerHandler_panics_only_on_empty_logout `{Packages}
    (st : state) (w : ResponseWriter) (r : Request) (msg : string) :
  providerHandler st w r = Panic msg
  ↔ msg = index_out_of_range
    ∧ 2 ≤ length (strings_Split (URL_Path r) "/")
    ∧ last (strings_Split (URL_Path r) "/") = Some "logout"
    ∧ registry st = [].
Proof.
  destruct (Nat.lt_ge_cases (length (strings_Split (URL_Path r) "/")) 2)
    as [Hshort|Hlen].
  { rewrite (providerHandler_short st w r Hshort).
    split; [done|]. intros (_ & ? & _). lia. }
  destruct (last (strings_Split (URL_Path r) "/")) as [final|] eqn:Hlast.
  2:{ apply last_None in Hlast. by destruct (strings_Split_nonempty _ _ Hlast). }
  rewrite (providerHandler_final st w r final Hlen Hlast).
  destruct (String.eqb_spec final "list") as [->|Hlist].
  { split; [done|]. intros (_ & _ & [=] & _). }
  destruct (String.eqb_spec final "logout") as [->|Hlogout].
  - unfold index. destruct (registry st) as [|p ps]; simpl.
    + split; [by intros [= <-]|]. by intros (-> & _).
    + split; [done|]. by intros (_ & _ & _ & ?).
  - split.
    + unfold index.
      destruct (second_to_last_exists _ Hlen) as [provName ->].
      by destruct (Provider st provName) as [p [err|]].
    + intros (_ & _ & [= ->] & _). done.
Qed.

(** X8. What the dispatcher writes itself, on a writer fresh from the
    server, carries status 400, or status 200 for a [list] request; and it
    never hands a request to the avatar proxy. *)
Theorem providerHandler_answers_400_or_list `{Packages}
    (st : state) (w : ResponseWriter) (r : Request) :
  (∀ w', providerHandler st new_writer r = Done w' →
     status w' = Some StatusBadRequest
     ∨ (status w' = Some StatusOK
        ∧ 2 ≤ length (strings_Split (URL_Path r) "/")
        ∧ last (strings_Split (URL_Path r) "/") = Some "list"))
  ∧ (∀ a w' r', providerHandler st w r ≠ TailCall (AvatarHandler a) w' r').
Proof.
  destruct (Nat.lt_ge_cases (length (strings_Split (URL_Path r) "/")) 2)
    as [Hshort|Hlen].
  { rewrite !(providerHandler_short st _ r Hshort).
    split; [|done]. intros w' [= <-]. by left. }
  destruct (last (strings_Split (URL_Path r) "/")) as [final|] eqn:Hlast.
  2:{ apply last_None in Hlast. by destruct (strings_Split_nonempty _ _ Hlast). }
  rewrite !(providerHandler_final st _ r final Hlen Hlast).
  destruct (String.eqb_spec final "list") as [->|Hlist].
  { split; [|done]. intros w' [= <-]. by right. }
  destruct (String.eqb final "logout").
  - unfold index. by destruct (registry st !! 0).
  - unfold index.
    destruct (second_to_last_exists _ Hlen) as [provName ->].
    destruct (Provider st provName) as [p [err|]]; [|done].
    split; [|done]. intros w' [= <-]. by left.
Qed.

(** ** Composition *)

(** X9. Every descriptor in the registry of a service built by [NewService]
    was made by one of the constructors of the kind table from parameters
    that carry the options' URL, the token service the middleware holds, the
    service's issuer and its avatar proxy; only client id and secret vary
    from one descriptor to the next. *)
Theorem registered_descriptors_share_service `{Packages}
    (o : Opts) (s : Service) (calls : list registration)
    (d : provider_Service) :
  NewService o = (Some s, None) →
  d ∈ registry (AddProviders (initial s) calls) →
  ∃ kind new cid csecret,
    constructor_of kind = Some new
    ∧ d = new {| Params_URL := URL o;
                 Params_JwtService :=
                   Authenticator_JWTService
                     (Middleware (AddProviders (initial s) calls));
                 Params_Issuer := issuer (svc (AddProviders (initial s) calls));
                 Params_AvatarProxy :=
                   avatarProxy (svc (AddProviders (initial s) calls));
                 Params_Cid := cid;
                 Params_Csecret := csecret |}.
Proof.
  intros Hnew Hd.
  destruct (NewService_state_ok o s Hnew) as [Hok Hempty].
  destruct (AddProviders_registry (initial s) calls Hok) as [Hreg _].
  rewrite Hempty in Hreg. simpl in Hreg. rewrite Hreg in Hd.
  apply list_elem_of_omap in Hd as ([[name cid] csecret] & _ & Hcall).
  unfold descriptor_of in Hcall.
  destruct (constructor_of (strings_ToLower name)) as [new|] eqn:Hkind;
    [|done].
  injection Hcall as <-.
  exists (strings_ToLower name), new, cid, csecret. split; [done|].
  destruct (AddProviders_frame (initial s) calls)
    as ((_ & _ & Hproxy & Hissuer) & Hjwt & _).
  unfold Middleware. rewrite Hjwt, Hproxy, Hissuer. simpl.
  unfold params_of. f_equal.
  revert Hnew. unfold NewService. destruct (SecretReader o); [|done].
  intros [= <-]. by destruct (String.eqb (Issuer o) ""), (AvatarStore o).
Qed.

Lemma registered_descriptors_share_service_witness :
  ∃ kind new cid csecret,
    constructor_of kind = Some new
    ∧ mkDescriptor "github" "id" "key" "go-pkgz/auth"
      = new {| Params_URL := "http://127.0.0.1:8080";
               Params_JwtService := tt;
               Params_Issuer := "go-pkgz/auth";
               Params_AvatarProxy := None;
               Params_Cid := cid;
               Params_Csecret := csecret |}.
Proof.
  refine (registered_descriptors_share_service (sample_opts "" None)
            (sample_service "" None)
            [("dev", "cid", "csecret"); ("github", "id", "key")]
            (mkDescriptor "github" "id" "key" "go-pkgz/auth") _ _).
  - reflexivity.
  - right. left.
Defined.

(** X10. No sequence of [AddProvider] calls changes the options, the token
    service, the avatar proxy or the issuer of the service, nor the token
    service, validator and development password of its middleware. *)
Theorem AddProviders_keeps_settings `{Packages}
    (st : state) (calls : list registration) :
  opts (svc (AddProviders st calls)) = opts (svc st)
  ∧ jwtService (svc (AddProviders st calls)) = jwtService (svc st)
  ∧ avatarProxy (svc (AddProviders st calls)) = avatarProxy (svc st)
  ∧ issuer (svc (AddProviders st calls)) = issuer (svc st)
  ∧ Authenticator_JWTService (Middleware (AddProviders st calls))
    = Authenticator_JWTService (Middleware st)
  ∧ Authenticator_Validator (Middleware (AddProviders st calls))
    = Authenticator_Validator (Middleware st)
  ∧ Authenticator_DevPasswd (Middleware (AddProviders st calls))
    = Authenticator_DevPasswd (Middleware st).
Proof.
  destruct (AddProviders_frame st calls)
    as ((Ho & Hj & Hp & Hi) & Hmj & Hv & Hd).
  by repeat split.
Qed.

(** X11. With an avatar store in the options, the avatar handler that
    [Handlers] returns is the handler of a proxy over that store, with the
    options' URL and the route [/avatar], whatever providers have been
    registered meanwhile. *)
Theorem avatar_handler_with_store `{Packages}
    (o : Opts) (s : Service) (store : avatar_Store)
    (calls : list registration) (w : ResponseWriter) (r : Request) :
  AvatarStore o = Some store →
  NewService o = (Some s, None) →
  (Handlers (AddProviders (initial s) calls)).2 w r
  = TailCall (AvatarHandler (mkProxy store (URL o) "/avatar")) w r.
Proof.
  intros Hstore Hnew. simpl.
  destruct (AddProviders_frame (initial s) calls) as ((_ & _ & -> & _) & _).
  revert Hnew. unfold NewService. rewrite Hstore.
  destruct (SecretReader o); [|done].
  intros [= <-]. by destruct (String.eqb (Issuer o) "").
Qed.

Lemma avatar_handler_with_store_witness :
  (Handlers
     (AddProviders (initial (sample_service "" (Some tt)))
        [("dev", "cid", "csecret")])).2
    new_writer (GET "/avatar/some-id")
  = TailCall
      (AvatarHandler
         (@mkProxy sample_handles tt "http://127.0.0.1:8080" "/avatar"))
      new_writer (GET "/avatar/some-id").
Proof.
  refine (avatar_handler_with_store (sample_opts "" (Some tt))
            (sample_service "" (Some tt)) tt [("dev", "cid", "csecret")]
            new_writer (GET "/avatar/some-id") _ _);
    reflexivity.
Defined.

(** ** Paths *)

(** X12. The segments [strings.Split] gives the dispatcher, joined by the
    separator, are the path again, and no segment contains the separator. *)
Theorem strings_Split_join (s : string) (sep : ascii) :
  String.concat (String sep EmptyString) (strings_Split s sep) = s
  ∧ ∀ seg, seg ∈ strings_Split s sep → string_contains sep seg = false.
Proof.
  induction s as [|c s [IHjoin IHseg]]; simpl.
  - split; [done|]. by intros seg ->%list_elem_of_singleton.
  - pose proof (strings_Split_nonempty s sep) as Hne.
    destruct (Ascii.eqb c sep) eqn:Hc.
    + apply Ascii.eqb_eq in Hc as ->. split.
      * destruct (strings_Split s sep) as [|seg segs]; [done|].
        simpl in *. by rewrite IHjoin.
      * intros seg [->|Hseg]%elem_of_cons; [done | by apply IHseg].
    + destruct (strings_Split s sep) as [|seg segs]; [done|]. split.
      * destruct segs as [|seg' segs]; simpl in *; by rewrite <- IHjoin.
      * intros x [->|Hx]%elem_of_cons.
        -- simpl. rewrite Hc. apply IHseg. by left.
        -- apply IHseg. by right.
Qed.
